(** * restream_io._schemas: the [ChannelWithMeta] display record

    A shallow embedding of [cli/python/src/restream_io/_schemas.py]: the
    attrs class [ChannelWithMeta(Channel)] with its two added fields and its
    [__str__] method, together with the small fragment of the Python run time
    the module relies on (dynamically typed values, attribute lookup,
    f-string formatting, truthiness, [str.split]). *)

From stdpp Require Import gmap strings list fin_maps pretty.
From Stdlib Require Import ZArith Ascii String.

Local Open Scope string_scope.

(** ** Python run-time fragment *)

Module Py.

(** The scalar values an API client stores in the fields of a channel. *)
Inductive value : Type :=
  | VStr (s : string)
  | VBool (b : bool)
  | VInt (z : Z)
  | VNone.

(** The built-in exceptions that a call of a generated constructor,
    attribute access and the conversion of an int to text can raise.  Each
    carries the name it complains about (a keyword or a parameter, an
    attribute, the limit that is exceeded), not the message text. *)
Inductive exn : Type :=
  | TypeError (detail : string)
  | AttributeError (name : string)
  | ValueError (detail : string).

(** [type(e).__name__] *)
Definition exn_class (e : exn) : string :=
  match e with
  | TypeError _ => "TypeError"
  | AttributeError _ => "AttributeError"
  | ValueError _ => "ValueError"
  end.

(** A computation either returns or raises. *)
Inductive result (A : Type) : Type :=
  | Ok (a : A)
  | Raise (e : exn).
Arguments Ok {A} a.
Arguments Raise {A} e.

#[global] Instance result_ret : MRet result := λ A a, Ok a.
#[global] Instance result_bind : MBind result := λ A B f m,
  match m with
  | Ok a => f a
  | Raise e => Raise e
  end.

(** An instance of a slotted class: the slots that are set, by name. *)
Abbreviation object := (gmap string value).

(** [self.name]: an unset slot raises [AttributeError]. *)
Definition getattr (self : object) (name : string) : result value :=
  match self !! name with
  | Some v => Ok v
  | None => Raise (AttributeError name)
  end.

(** [bool(v)], the test of a conditional expression. *)
Definition truthy (v : value) : bool :=
  match v with
  | VStr s => negb (String.eqb s EmptyString)
  | VBool b => b
  | VInt z => negb (Z.eqb z 0)
  | VNone => false
  end.

(** The default of [sys.get_int_max_str_digits()]: the conversion of an
    int to decimal text is refused beyond this number of digits. *)
Definition int_max_str_digits : Z := 4300.

(** [str(z)] for an int: the decimal digits, with a sign when negative;
    [ValueError] when there are more than [int_max_str_digits] digits, the
    sign not counted. *)
Definition int_to_str (z : Z) : result string :=
  if (Z.abs z <? 10 ^ int_max_str_digits)%Z then Ok (pretty z)
  else Raise (ValueError "int_max_str_digits").

(** [format(v, '')], what a replacement field [{v}] of an f-string with no
    conversion and no format spec puts into the result. *)
Definition format (v : value) : result string :=
  match v with
  | VStr s => Ok s
  | VBool true => Ok "True"
  | VBool false => Ok "False"
  | VInt z => int_to_str z
  | VNone => Ok "None"
  end.

(** The character written [\n] in a Python literal. *)
Definition LF_char : ascii := ascii_of_nat 10.
Definition LF : string := String LF_char EmptyString.

(** [s.count(c)] for a one-character [c]. *)
Fixpoint count (c : ascii) (s : string) : nat :=
  match s with
  | EmptyString => 0
  | String a s' => (if decide (a = c) then 1 else 0) + count c s'
  end.

(** [s.split(c)] for a one-character separator [c]. *)
Fixpoint split (c : ascii) (s : string) : list string :=
  match s with
  | EmptyString => [EmptyString]
  | String a s' =>
      if decide (a = c) then EmptyString :: split c s'
      else match split c s' with
           | [] => [String a EmptyString]
           | l :: ls => String a l :: ls
           end
  end.

(** [sep.join(parts)] *)
Fixpoint join (sep : string) (parts : list string) : string :=
  match parts with
  | [] => EmptyString
  | [p] => p
  | p :: ps => p +:+ sep +:+ join sep ps
  end.

(** [s.startswith(p)], [s.endswith(p)] and [p in s] as propositions. *)
Definition startswith (s p : string) : Prop := ∃ rest, s = p +:+ rest.
Definition endswith (s p : string) : Prop := ∃ pre, s = pre +:+ p.
Definition contains (s p : string) : Prop :=
  ∃ pre post, s = pre +:+ p +:+ post.

End Py.

Import Py.

(** ** The class *)

Module Channel.

(** Modelled from the spec: the field declarations of
    [pyrestream.schemas.Channel], the base class, which is imported by the
    module but is not part of it.  The specification lists these seven
    attributes for the base resource record. *)
Definition fields : list string :=
  ["id"; "display_name"; "active"; "channel_url"; "channel_identifier";
   "service_id"; "user_id"].

End Channel.

Module ChannelWithMeta.

(** [@attrs.define class ChannelWithMeta(Channel)]: the attributes of the
    base class followed by the two declared in the body,
    [title: str] and [description: str]. *)
Definition fields : list string := Channel.fields ++ ["title"; "description"].

(** The declared attribute names, as a set. *)
Definition field_set : gset string := list_to_set fields.

(** The keyword that a call passes and the class does not declare, if any. *)
Definition unexpected (kwargs : gmap string value) : option string :=
  head (filter (λ k, k ∉ fields) (elements (dom kwargs))).

(** Binding of the call's keyword arguments to the parameters of the
    generated [__init__]: every attribute is a required parameter, as none
    is declared with a default. *)
Fixpoint bind_args (kwargs : gmap string value) (params : list string)
  : result (list (string * value)) :=
  match params with
  | [] => Ok []
  | p :: ps =>
      match kwargs !! p with
      | Some v => args ← bind_args kwargs ps; Ok ((p, v) :: args)
      | None => Raise (TypeError p)
      end
  end.

(** The [__init__] that [attrs.define] generates: one parameter per
    attribute, each stored as passed.  The class declares no validator, no
    converter and no [__attrs_post_init__], and annotations are not
    checked. *)
Definition __init__ (kwargs : gmap string value) : result object :=
  match unexpected kwargs with
  | Some k => Raise (TypeError k)
  | None =>
      args ← bind_args kwargs fields;
      Ok (foldl (λ (self : object) '(name, v), <[name := v]> self) ∅ args)
  end.

(** The parameter that a keyword gives again after a positional argument
    has bound it, if any. *)
Definition repeated (positional : list (string * value))
    (kwargs : gmap string value) : option string :=
  head (filter (λ p, is_Some (kwargs !! p)) positional.*1).

(** A call [ChannelWithMeta( *args, **kwargs)].  The parameters of the
    generated [__init__] are positional-or-keyword: the positional
    arguments bind the leading parameters in the order of declaration, and
    the keywords bind the others as in [__init__].  More positional
    arguments than parameters, or a keyword for a parameter that is already
    bound, raise [TypeError]. *)
Definition construct (args : list value) (kwargs : gmap string value)
  : result object :=
  if decide (List.length fields < List.length args)%nat
  then Raise (TypeError "__init__")
  else
    let positional := zip fields args in
    match repeated positional kwargs with
    | Some p => Raise (TypeError p)
    | None => __init__ (kwargs ∪ list_to_map positional)
    end.

(** Attribute assignment [self.name = v].  [attrs.define] is used without
    [frozen=True], so the generated class keeps the plain slot assignment;
    a name outside the slots raises [AttributeError]. *)
Definition __setattr__ (self : object) (name : string) (v : value)
  : result object :=
  if decide (name ∈ fields) then Ok (<[name := v]> self)
  else Raise (AttributeError name).

(** [ChannelWithMeta.__str__]: one f-string built from adjacent literals.
    The replacement fields are evaluated left to right, and each value is
    formatted as soon as it is read, before the next attribute is looked
    up; the pieces are joined at the end. *)
Definition __str__ (self : object) : result string :=
  v_id ← getattr self "id";
  s_id ← format v_id;
  v_display_name ← getattr self "display_name";
  s_display_name ← format v_display_name;
  v_title ← getattr self "title";
  s_title ← format v_title;
  v_description ← getattr self "description";
  s_description ← format v_description;
  v_active ← getattr self "active";
  s_status ← format (VStr (if truthy v_active then "Active" else "Inactive"));
  v_channel_url ← getattr self "channel_url";
  s_channel_url ← format v_channel_url;
  v_channel_identifier ← getattr self "channel_identifier";
  s_channel_identifier ← format v_channel_identifier;
  v_service_id ← getattr self "service_id";
  s_service_id ← format v_service_id;
  v_user_id ← getattr self "user_id";
  s_user_id ← format v_user_id;
  Ok (    "Channel Information:" +:+ LF
      +:+ "  ID: " +:+ s_id +:+ LF
      +:+ "  Display Name: " +:+ s_display_name +:+ LF
      +:+ "  Title: " +:+ s_title +:+ LF
      +:+ "  Description: " +:+ s_description +:+ LF
      +:+ "  Status: " +:+ s_status +:+ LF
      +:+ "  Channel URL: " +:+ s_channel_url +:+ LF
      +:+ "  Channel Identifier: " +:+ s_channel_identifier +:+ LF
      +:+ "  Service ID: " +:+ s_service_id +:+ LF
      +:+ "  User ID: " +:+ s_user_id).

End ChannelWithMeta.

Import ChannelWithMeta.

(** ** Records of the data model *)

Module Base.

(** Modelled from the spec: a base resource record whose attributes have
    the types the data model gives them (strings, and a boolean [active]);
    the annotations of [pyrestream.schemas.Channel] are not part of the
    module. *)
Record t : Type := mk {
  id : string;
  display_name : string;
  active : bool;
  channel_url : string;
  channel_identifier : string;
  service_id : string;
  user_id : string
}.

(** The attributes of the [Channel] instance that holds such a record. *)
Definition attrs (c : t) : gmap string value :=
  <["id" := VStr (id c)]> (
  <["display_name" := VStr (display_name c)]> (
  <["active" := VBool (active c)]> (
  <["channel_url" := VStr (channel_url c)]> (
  <["channel_identifier" := VStr (channel_identifier c)]> (
  <["service_id" := VStr (service_id c)]> (
  <["user_id" := VStr (user_id c)]> ∅)))))).

End Base.

(** The metadata pair, as keyword arguments. *)
Definition meta (title description : string) : gmap string value :=
  <["title" := VStr title]> (<["description" := VStr description]> ∅).

(** The keyword arguments that compose a base record with a metadata pair. *)
Definition extended (c : Base.t) (title description : string)
  : gmap string value :=
  Base.attrs c ∪ meta title description.

(** [self] is an Extended Display Record with the fields of [c] and the
    metadata [title], [description]: each of the nine attributes is set, to
    a string, or to a boolean for [active]. *)
Definition is_record (self : object) (c : Base.t) (title description : string)
  : Prop :=
  extended c title description ⊆ self.

(** The layout that the specification prescribes for the rendered text. *)
Module Layout.

Definition header : string := "Channel Information:".

Definition labels : list string :=
  ["  ID: "; "  Display Name: "; "  Title: "; "  Description: ";
   "  Status: "; "  Channel URL: "; "  Channel Identifier: ";
   "  Service ID: "; "  User ID: "].

Definition status (active : bool) : string :=
  if active then "Active" else "Inactive".

Definition values (c : Base.t) (title description : string) : list string :=
  [Base.id c; Base.display_name c; title; description;
   status (Base.active c); Base.channel_url c; Base.channel_identifier c;
   Base.service_id c; Base.user_id c].

Definition lines (c : Base.t) (title description : string) : list string :=
  zip_with String.append labels (values c title description).

End Layout.

(** ** The scenario of the specification *)

Definition scenario_channel : Base.t :=
  {| Base.id := "c1";
     Base.display_name := "My Channel";
     Base.active := true;
     Base.channel_url := "https://x.tv/c1";
     Base.channel_identifier := "c1-ext";
     Base.service_id := "svc1";
     Base.user_id := "u1" |}.

Definition scenario_kwargs : gmap string value :=
  extended scenario_channel "Live Show" "Daily stream".

Definition scenario_output : string :=
  join LF
    ["Channel Information:";
     "  ID: c1";
     "  Display Name: My Channel";
     "  Title: Live Show";
     "  Description: Daily stream";
     "  Status: Active";
     "  Channel URL: https://x.tv/c1";
     "  Channel Identifier: c1-ext";
     "  Service ID: svc1";
     "  User ID: u1"].

(** A description of two lines. *)
Definition two_line_description : string := "Daily" +:+ LF +:+ "stream".

(** What the specification asks of a rendered text: split on newline, it is
    the header followed by exactly nine lines, the i-th of which begins with
    the i-th label. *)
Definition nine_labelled_lines (out : string) : Prop :=
  ∃ ls, split LF_char out = Layout.header :: ls
        ∧ Forall2 startswith ls Layout.labels.

(** ** The attributes that rendering reads *)

(** The attributes of the replacement fields of [__str__], in the order in
    which the f-string evaluates them: [title] and [description] come after
    [display_name] and before [active]. *)
Definition reads : list string :=
  ["id"; "display_name"; "title"; "description"; "active"; "channel_url";
   "channel_identifier"; "service_id"; "user_id"].

(** Every declared attribute of [self] is set. *)
Definition complete (self : object) : Prop :=
  Forall (λ name, is_Some (self !! name)) fields.

(** The smallest int that has more digits than the limit allows. *)
Definition over_long_int : Z := 10 ^ int_max_str_digits.

(** The attributes whose values the template interpolates; [active] is
    only tested. *)
Definition interpolated : list string :=
  ["id"; "display_name"; "title"; "description"; "channel_url";
   "channel_identifier"; "service_id"; "user_id"].

(** The value of every interpolated attribute that is set can be converted
    to text. *)
Definition formattable (self : object) : Prop :=
  Forall (λ name, ∀ v, self !! name = Some v → ∃ s, format v = Ok s)
    interpolated.

(** What the replacement field that reads [name] contributes to the text:
    [Active] or [Inactive] by the truth value for [active], the formatted
    value for the others. *)
Definition field_text (self : object) (name : string) : result string :=
  v ← getattr self name;
  if decide (name = "active")
  then format (VStr (if truthy v then "Active" else "Inactive"))
  else format v.

(** ** Attribute lookup on records *)

Section record_lookup.
Context (self : object) (c : Base.t) (title description : string).
Hypothesis Hrec : is_record self c title description.

Lemma record_lookup (name : string) (v : value) :
  extended c title description !! name = Some v → self !! name = Some v.
Proof. intros Hv. exact (lookup_weaken _ _ _ _ Hv Hrec). Qed.

Lemma record_str :
  __str__ self =
    Ok (join LF (Layout.header :: Layout.lines c title description)).
Proof.
  unfold __str__, getattr.
  rewrite (record_lookup "id" (VStr (Base.id c))) by reflexivity.
  rewrite (record_lookup "display_name" (VStr (Base.display_name c))) by reflexivity.
  rewrite (record_lookup "title" (VStr title)) by reflexivity.
  rewrite (record_lookup "description" (VStr description)) by reflexivity.
  rewrite (record_lookup "active" (VBool (Base.active c))) by reflexivity.
  rewrite (record_lookup "channel_url" (VStr (Base.channel_url c))) by reflexivity.
  rewrite (record_lookup "channel_identifier" (VStr (Base.channel_identifier c))) by reflexivity.
  rewrite (record_lookup "service_id" (VStr (Base.service_id c))) by reflexivity.
  rewrite (record_lookup "user_id" (VStr (Base.user_id c))) by reflexivity.
  reflexivity.
Qed.
End record_lookup.

(** ** Strings: concatenation, counting, splitting and joining *)

Section strings.
Implicit Types (s t u : string) (c a : ascii) (parts : list string).

Lemma app_cons a s t : String a s +:+ t = String a (s +:+ t).
Proof. reflexivity. Qed.

Lemma app_nil_l s : EmptyString +:+ s = s.
Proof. reflexivity. Qed.

Lemma app_assoc s t u : (s +:+ t) +:+ u = s +:+ (t +:+ u).
Proof. induction s as [|a s IH]; [done|]. by rewrite !app_cons, IH. Qed.

Lemma count_app c s t : count c (s +:+ t) = count c s + count c t.
Proof.
  induction s as [|a s IH]; [done|].
  rewrite app_cons. simpl. rewrite IH. lia.
Qed.

Lemma count_sep c s : count c (String c s) = S (count c s).
Proof. simpl. by rewrite decide_True. Qed.

Lemma split_nonempty c s : split c s ≠ @nil string.
Proof.
  destruct s as [|a s]; simpl; [done|].
  case_decide; [done|]. by destruct (split c s).
Qed.

Lemma length_split c s : List.length (split c s) = S (count c s).
Proof.
  induction s as [|a s IH]; [done|]. simpl.
  case_decide; simpl; [by rewrite IH|].
  destruct (split c s) as [|l ls] eqn:E; [by apply split_nonempty in E|].
  simpl in *. lia.
Qed.

Lemma split_no_sep c s : count c s = 0 → split c s = [s].
Proof.
  induction s as [|a s IH]; [done|]. simpl.
  case_decide; [done|]. intros Hs. by rewrite IH.
Qed.

Lemma split_line c s t :
  count c s = 0 → split c (s +:+ String c t) = s :: split c t.
Proof.
  induction s as [|a s IH]; intros Hs.
  - rewrite app_nil_l. simpl. by rewrite decide_True.
  - rewrite app_cons. simpl in *. case_decide; [done|]. by rewrite IH.
Qed.

Lemma join_cons c p q parts :
  join (String c EmptyString) (p :: q :: parts)
  = p +:+ String c (join (String c EmptyString) (q :: parts)).
Proof. reflexivity. Qed.

Lemma split_join c parts :
  parts ≠ [] → Forall (λ p, count c p = 0) parts →
  split c (join (String c EmptyString) parts) = parts.
Proof.
  intros Hne Hall. induction Hall as [|p ps Hp Hps IH]; [done|].
  destruct ps as [|q ps]; [by apply split_no_sep|].
  rewrite join_cons, split_line by done. by rewrite IH.
Qed.

Lemma app_nil_r s : s +:+ EmptyString = s.
Proof. induction s as [|a s IH]; [done|]. by rewrite app_cons, IH. Qed.

Lemma join_step sep p q parts :
  join sep (p :: q :: parts) = p +:+ sep +:+ join sep (q :: parts).
Proof. reflexivity. Qed.

Lemma join_contains sep parts p :
  p ∈ parts → contains (join sep parts) p.
Proof.
  induction parts as [|q [|r ps] IH]; intros Hp.
  - by apply elem_of_nil in Hp.
  - apply list_elem_of_singleton in Hp as ->.
    exists EmptyString, EmptyString. by rewrite app_nil_l, app_nil_r.
  - rewrite join_step. apply elem_of_cons in Hp as [->|Hp].
    + by exists EmptyString, (sep +:+ join sep (r :: ps)).
    + destruct (IH Hp) as (pre & post & ->).
      exists (q +:+ sep +:+ pre), post. by rewrite !app_assoc.
Qed.

Lemma join_endswith sep parts p :
  last parts = Some p → endswith (join sep parts) p.
Proof.
  induction parts as [|q [|r ps] IH]; intros Hp.
  - done.
  - injection Hp as ->. exists EmptyString. by rewrite app_nil_l.
  - rewrite join_step. destruct (IH Hp) as (pre & ->).
    exists (q +:+ sep +:+ pre). by rewrite !app_assoc.
Qed.

Lemma count_join c parts :
  count c (join (String c EmptyString) parts)
  = pred (List.length parts) + list_sum (count c <$> parts).
Proof.
  induction parts as [|p ps IH]; [done|].
  destruct ps as [|q ps]; [simpl; lia|].
  rewrite join_cons, count_app, count_sep, IH. simpl. lia.
Qed.

Lemma split_join_lookup c pre p rest :
  Forall (λ q, count c q = 0) pre → count c p = 0 →
  split c (join (String c EmptyString) (pre ++ p :: rest)) !! List.length pre
  = Some p.
Proof.
  intros Hpre Hp. induction Hpre as [|q pre Hq _ IH]; simpl app.
  - destruct rest as [|r rest]; [by rewrite split_no_sep|].
    by rewrite join_cons, split_line.
  - destruct (pre ++ p :: rest)%list as [|r l] eqn:E; [by destruct pre|].
    by rewrite join_cons, split_line.
Qed.

Lemma zip_one_line c (labels values : list string) :
  Forall (λ l, count c l = 0) labels →
  Forall (λ v, count c v = 0) values →
  Forall (λ p, count c p = 0) (zip_with String.append labels values).
Proof.
  intros Hl. revert values.
  induction Hl as [|l labels Hl _ IH]; intros values Hv; [by constructor|].
  destruct Hv as [|v values Hv Hvs]; simpl; constructor; [|by apply IH].
  rewrite count_app. lia.
Qed.

Lemma zip_count c (labels values : list string) :
  Forall (λ l, count c l = 0) labels →
  List.length labels = List.length values →
  list_sum (count c <$> zip_with String.append labels values)
  = list_sum (count c <$> values).
Proof.
  intros Hl. revert values.
  induction Hl as [|l labels Hl _ IH]; intros [|v values] Hlen;
    csimpl in *; try done.
  injection Hlen as Hlen. rewrite count_app, (IH _ Hlen). lia.
Qed.
End strings.

(** The header and the labels are single lines. *)
Lemma header_one_line : count LF_char Layout.header = 0.
Proof. reflexivity. Qed.

Lemma labels_one_line : Forall (λ l, count LF_char l = 0) Layout.labels.
Proof. repeat constructor. Qed.

(** ** The generated constructor *)

Section constructor.
Implicit Types (kwargs : gmap string value) (ps : list string)
  (args : list (string * value)).

Lemma unexpected_None kwargs :
  unexpected kwargs = None ↔ dom kwargs ⊆ field_set.
Proof.
  unfold unexpected, field_set. rewrite head_None. split.
  - intros Hnil k Hk. apply elem_of_list_to_set.
    destruct (decide (k ∈ fields)) as [|Hout]; [done|].
    exfalso. eapply (filter_nil_not_elem_of _ _ k Hnil Hout).
    by apply elem_of_elements.
  - intros Hsub. destruct (filter _ _) as [|k l] eqn:E; [done|].
    assert (k ∈ filter (λ k, k ∉ fields) (elements (dom kwargs))) as Hk
      by (rewrite E; left).
    apply list_elem_of_filter in Hk as [Hout Hk].
    apply elem_of_elements, Hsub, elem_of_list_to_set in Hk. done.
Qed.

Lemma bind_args_TypeError kwargs ps e :
  bind_args kwargs ps = Raise e → exn_class e = "TypeError".
Proof.
  induction ps as [|p ps IH]; simpl; [done|].
  destruct (kwargs !! p); [|by intros [= <-]].
  destruct (bind_args kwargs ps); simpl; [done|]. intros [= <-]. by apply IH.
Qed.

Lemma bind_args_Ok kwargs ps :
  Forall (λ p, is_Some (kwargs !! p)) ps →
  ∃ args, bind_args kwargs ps = Ok args
          ∧ Forall2 (λ p a, a.1 = p ∧ kwargs !! p = Some a.2) ps args.
Proof.
  induction 1 as [|p ps [v Hv] _ (args & Hb & IH)]; simpl.
  - by exists [].
  - rewrite Hv, Hb. exists ((p, v) :: args). split; [done|]. by constructor.
Qed.

Lemma bind_args_Ok_inv kwargs ps args :
  bind_args kwargs ps = Ok args → Forall (λ p, is_Some (kwargs !! p)) ps.
Proof.
  revert args. induction ps as [|p ps IH]; intros args; simpl; [done|].
  destruct (kwargs !! p) as [v|] eqn:Hv; [|done].
  destruct (bind_args kwargs ps) as [args'|]; simpl; [|done].
  intros _. constructor; eauto.
Qed.

(** The assignments of the constructor body, started from [self]. *)
Lemma assign_lookup kwargs ps args (self : object) (n : string) :
  Forall2 (λ p a, a.1 = p ∧ kwargs !! p = Some a.2) ps args →
  foldl (λ (self : object) '(name, v), <[name := v]> self) self args !! n
  = if decide (n ∈ ps) then kwargs !! n else self !! n.
Proof.
  intros Hargs. revert self.
  induction Hargs as [|p [q v] ps args [Hq Hv] _ IH]; intros self.
  - by destruct (decide (n ∈ [])) as [Hn%elem_of_nil|].
  - simpl in Hq, Hv. subst q. cbn [foldl]. rewrite IH.
    destruct (decide (n ∈ ps)) as [Hin|Hout].
    + by rewrite decide_True by (by right).
    + destruct (decide (n = p)) as [->|Hne].
      * rewrite decide_True by left. by rewrite lookup_insert_eq.
      * rewrite lookup_insert_ne by done.
        rewrite decide_False; [done|]. by intros [?|?]%elem_of_cons.
Qed.

Lemma init_Ok kwargs : dom kwargs = field_set → __init__ kwargs = Ok kwargs.
Proof.
  intros Hdom. unfold __init__.
  destruct (unexpected kwargs) as [k|] eqn:Hk.
  { assert (unexpected kwargs = None) as Hnone
      by (apply unexpected_None; by rewrite Hdom).
    congruence. }
  destruct (bind_args_Ok kwargs fields) as (args & -> & Hargs).
  { apply Forall_forall. intros p Hp. apply elem_of_dom.
    rewrite Hdom. by apply elem_of_list_to_set. }
  simpl. f_equal. apply map_eq. intros n.
  rewrite (assign_lookup kwargs fields) by done.
  case_decide as Hn; [done|]. rewrite lookup_empty. symmetry.
  apply not_elem_of_dom. rewrite Hdom. unfold field_set.
  by rewrite elem_of_list_to_set.
Qed.

Lemma init_Ok_inv kwargs (self : object) :
  __init__ kwargs = Ok self → dom kwargs = field_set.
Proof.
  unfold __init__. destruct (unexpected kwargs) as [k|] eqn:Hk; [done|].
  destruct (bind_args kwargs fields) as [args|] eqn:Hargs; [|done].
  intros _. apply unexpected_None in Hk. apply bind_args_Ok_inv in Hargs.
  apply set_eq. intros n. split; [by apply Hk|].
  intros Hn%elem_of_list_to_set. apply elem_of_dom.
  by apply (proj1 (Forall_forall _ _) Hargs).
Qed.

Lemma init_TypeError kwargs e :
  __init__ kwargs = Raise e → exn_class e = "TypeError".
Proof.
  unfold __init__. destruct (unexpected kwargs) as [k|]; [by intros [= <-]|].
  destruct (bind_args kwargs fields) as [args|e'] eqn:Hargs; [done|].
  intros [= <-]. by eapply bind_args_TypeError.
Qed.
End constructor.

(** ** Rendering *)

(** C1: for every Extended Display Record whose fields are strings, and
    [active] a boolean, [__str__] returns the header followed by the nine
    label:value lines in the fixed order, joined by single newline
    characters; nothing follows the value of the last line, so no newline is
    appended at the end. *)
Theorem str_layout (self : object) (c : Base.t) (title description : string) :
  is_record self c title description →
  __str__ self
  = Ok (join LF
          ["Channel Information:";
           "  ID: " +:+ Base.id c;
           "  Display Name: " +:+ Base.display_name c;
           "  Title: " +:+ title;
           "  Description: " +:+ description;
           "  Status: " +:+ (if Base.active c then "Active" else "Inactive");
           "  Channel URL: " +:+ Base.channel_url c;
           "  Channel Identifier: " +:+ Base.channel_identifier c;
           "  Service ID: " +:+ Base.service_id c;
           "  User ID: " +:+ Base.user_id c])
  ∧ ∃ out, __str__ self = Ok out
           ∧ endswith out ("  User ID: " +:+ Base.user_id c).
Proof.
  intros Hrec. rewrite (record_str self c title description Hrec).
  split; [reflexivity|]. eexists. split; [reflexivity|].
  by apply join_endswith.
Qed.

Lemma str_layout_witness :
  is_record scenario_kwargs scenario_channel "Live Show" "Daily stream"
  ∧ __str__ scenario_kwargs = Ok scenario_output.
Proof.
  assert (is_record scenario_kwargs scenario_channel "Live Show" "Daily stream")
    as Hrec by (unfold is_record, scenario_kwargs; reflexivity).
  split; [exact Hrec|].
  exact (proj1 (str_layout scenario_kwargs scenario_channel
                  "Live Show" "Daily stream" Hrec)).
Defined.

(** C2: the record of the scenario ([id] c1, [display_name] My Channel,
    [active] true, ..., [title] Live Show, [description] Daily stream),
    constructed and rendered, gives exactly the ten lines of the
    specification, joined by newlines. *)
Theorem scenario_rendering :
  (self ← __init__ scenario_kwargs; __str__ self) = Ok scenario_output.
Proof. vm_compute. reflexivity. Qed.

(** C7: rendering a valid Extended Display Record never fails: [__str__]
    returns a string and raises no exception. *)
Theorem str_total (self : object) (c : Base.t) (title description : string) :
  is_record self c title description →
  (∃ out, __str__ self = Ok out) ∧ (∀ e, __str__ self ≠ Raise e).
Proof.
  intros Hrec. rewrite (record_str self c title description Hrec).
  split; [by eexists|done].
Qed.

Lemma str_total_witness :
  is_record scenario_kwargs scenario_channel "Live Show" "Daily stream"
  ∧ (∃ out, __str__ scenario_kwargs = Ok out)
  ∧ (∀ e, __str__ scenario_kwargs ≠ Raise e).
Proof.
  assert (is_record scenario_kwargs scenario_channel "Live Show" "Daily stream")
    as Hrec by (unfold is_record, scenario_kwargs; reflexivity).
  split; [exact Hrec|].
  exact (str_total scenario_kwargs scenario_channel
           "Live Show" "Daily stream" Hrec).
Defined.

(** The hypothesis of [str_total] is needed: an unset attribute makes
    rendering raise, at the first replacement field that reads it. *)
Example str_unset_title :
  __str__ (delete "title" scenario_kwargs) = Raise (AttributeError "title").
Proof. vm_compute. reflexivity. Qed.

(** Values of the other types are rendered as Python formats them, and the
    status follows the truth value of [active]. *)
Example str_other_types :
  ∃ out,
    __str__ (<["id" := VInt 42]> (<["active" := VNone]> scenario_kwargs))
    = Ok out
    ∧ split LF_char out !! 1 = Some "  ID: 42"
    ∧ split LF_char out !! 5 = Some "  Status: Inactive".
Proof. eexists. repeat split; vm_compute; reflexivity. Qed.

(** C5: rendering is deterministic and depends on nothing but the nine
    fields: two records that agree on every declared field render to the
    same result, whatever else they hold. *)
Theorem str_deterministic (self other : object) :
  Forall (λ name, self !! name = other !! name) fields →
  __str__ self = __str__ other.
Proof.
  intros Hagree. unfold __str__, getattr.
  assert (∀ name, name ∈ fields → self !! name = other !! name) as Heq
    by (by apply Forall_forall).
  rewrite !Heq by (unfold fields, Channel.fields; set_solver).
  reflexivity.
Qed.

Lemma str_deterministic_witness :
  Forall (λ name, scenario_kwargs !! name
                  = (<["embed" := VStr "frame"]> scenario_kwargs) !! name) fields
  ∧ __str__ scenario_kwargs
    = __str__ (<["embed" := VStr "frame"]> scenario_kwargs).
Proof.
  assert (Forall (λ name, scenario_kwargs !! name
            = (<["embed" := VStr "frame"]> scenario_kwargs) !! name) fields)
    as Hagree by (repeat constructor).
  split; [exact Hagree|].
  exact (str_deterministic _ _ Hagree).
Defined.

(** C3: in the rendered text the line between the Description line and the
    Channel URL line is [  Status: Active] exactly when [active] is true and
    [  Status: Inactive] exactly when it is false, and it is never anything
    else; when the four values printed before it are single lines, it is the
    sixth line of the text. *)
Theorem status_line (self : object) (c : Base.t) (title description : string) :
  is_record self c title description →
  ∃ line out,
    __str__ self = Ok out
    ∧ out = join LF
              (take 5 (Layout.header :: Layout.lines c title description)
               ++ line
                  :: drop 6 (Layout.header :: Layout.lines c title description))
    ∧ (line = "  Status: Active" ↔ Base.active c = true)
    ∧ (line = "  Status: Inactive" ↔ Base.active c = false)
    ∧ (line = "  Status: Active" ∨ line = "  Status: Inactive")
    ∧ (Forall (λ v, count LF_char v = 0)
         [Base.id c; Base.display_name c; title; description] →
       split LF_char out !! 5 = Some line).
Proof.
  intros Hrec. rewrite (record_str self c title description Hrec).
  exists ("  Status: " +:+ Layout.status (Base.active c)). eexists.
  split; [reflexivity|]. split; [reflexivity|].
  split; [|split; [|split]].
  - by destruct (Base.active c).
  - by destruct (Base.active c).
  - destruct (Base.active c); [by left|by right].
  - intros Hone.
    set (line := "  Status: " +:+ Layout.status (Base.active c)).
    set (pre := Layout.header
                :: zip_with String.append (take 4 Layout.labels)
                     [Base.id c; Base.display_name c; title; description]).
    set (rest := drop 6 (Layout.header :: Layout.lines c title description)).
    change (split LF_char (join (String LF_char EmptyString) (pre ++ line :: rest))
              !! List.length pre = Some line).
    apply split_join_lookup.
    + constructor; [exact header_one_line|].
      apply zip_one_line; [repeat constructor|exact Hone].
    + unfold line. by destruct (Base.active c).
Qed.

Lemma status_line_witness :
  is_record scenario_kwargs scenario_channel "Live Show" "Daily stream"
  ∧ ∃ line out,
      __str__ scenario_kwargs = Ok out
      ∧ out = join LF
                (take 5 (Layout.header
                         :: Layout.lines scenario_channel "Live Show" "Daily stream")
                 ++ line
                    :: drop 6 (Layout.header
                               :: Layout.lines scenario_channel
                                    "Live Show" "Daily stream"))
      ∧ (line = "  Status: Active" ↔ Base.active scenario_channel = true)
      ∧ (line = "  Status: Inactive" ↔ Base.active scenario_channel = false)
      ∧ (line = "  Status: Active" ∨ line = "  Status: Inactive")
      ∧ (Forall (λ v, count LF_char v = 0)
           [Base.id scenario_channel; Base.display_name scenario_channel;
            "Live Show"; "Daily stream"] →
         split LF_char out !! 5 = Some line).
Proof.
  assert (is_record scenario_kwargs scenario_channel "Live Show" "Daily stream")
    as Hrec by (unfold is_record, scenario_kwargs; reflexivity).
  split; [exact Hrec|].
  exact (status_line scenario_kwargs scenario_channel
           "Live Show" "Daily stream" Hrec).
Defined.

(** ** Composition followed by rendering *)

Lemma extended_dom (c : Base.t) (title description : string) :
  dom (extended c title description) = field_set.
Proof.
  unfold extended, Base.attrs, meta.
  rewrite dom_union_L, !dom_insert_L, dom_empty_L.
  unfold field_set, fields, Channel.fields. set_solver.
Qed.

Lemma init_extended (c : Base.t) (title description : string) :
  __init__ (extended c title description) = Ok (extended c title description).
Proof. apply init_Ok, extended_dom. Qed.

Lemma compose_render (c : Base.t) (title description : string) :
  (self ← __init__ (extended c title description); __str__ self)
  = Ok (join LF (Layout.header :: Layout.lines c title description)).
Proof.
  rewrite init_extended. simpl. apply record_str.
  unfold is_record. reflexivity.
Qed.

(** C4, as amended: for every valid base record and every metadata pair
    whose string values contain no newline character, composing and then
    rendering gives a text that, split on newline, is the header followed by
    exactly nine lines, each beginning with its label, in the fixed order. *)
Theorem single_line_values_nine_lines
    (c : Base.t) (title description : string) :
  Forall (λ v, count LF_char v = 0) (Layout.values c title description) →
  ∃ out,
    (self ← __init__ (extended c title description); __str__ self) = Ok out
    ∧ nine_labelled_lines out.
Proof.
  intros Hone. rewrite compose_render. eexists. split; [reflexivity|].
  exists (Layout.lines c title description). split.
  - apply (split_join LF_char); [done|].
    constructor; [exact header_one_line|].
    apply zip_one_line; [exact labels_one_line|exact Hone].
  - repeat constructor; by eexists.
Qed.

Lemma single_line_values_nine_lines_witness :
  Forall (λ v, count LF_char v = 0)
    (Layout.values scenario_channel "Live Show" "Daily stream")
  ∧ ∃ out,
      (self ← __init__ (extended scenario_channel "Live Show" "Daily stream");
       __str__ self) = Ok out
      ∧ nine_labelled_lines out.
Proof.
  assert (Forall (λ v, count LF_char v = 0)
            (Layout.values scenario_channel "Live Show" "Daily stream"))
    as Hone by (repeat constructor).
  split; [exact Hone|].
  exact (single_line_values_nine_lines scenario_channel
           "Live Show" "Daily stream" Hone).
Defined.

(** C4, as stated, fails: with a description of two lines the rendered text
    has ten lines after the header, and the fifth of them does not begin
    with the Status label. *)
Lemma two_line_description_ten_lines :
  ∃ out,
    (self ← __init__ (extended scenario_channel "Live Show" two_line_description);
     __str__ self) = Ok out
    ∧ split LF_char out
      = ["Channel Information:";
         "  ID: c1";
         "  Display Name: My Channel";
         "  Title: Live Show";
         "  Description: Daily";
         "stream";
         "  Status: Active";
         "  Channel URL: https://x.tv/c1";
         "  Channel Identifier: c1-ext";
         "  Service ID: svc1";
         "  User ID: u1"]
    ∧ ¬ nine_labelled_lines out.
Proof.
  eexists. split; [vm_compute; reflexivity|]. split; [vm_compute; reflexivity|].
  intros (ls & Hsplit & Hlabels).
  apply Forall2_length in Hlabels.
  vm_compute in Hsplit. injection Hsplit as <-. discriminate Hlabels.
Qed.

(** C10: the field values are put into the text verbatim: every label is
    immediately followed by its value ([Active] or [Inactive] for the
    status), and every newline character of a value is a newline character
    of the text, so the text has ten lines plus one for each newline that
    occurs in a value. *)
Theorem values_verbatim (self : object) (c : Base.t) (title description : string) :
  is_record self c title description →
  ∃ out,
    __str__ self = Ok out
    ∧ Forall (contains out)
        ["  ID: " +:+ Base.id c;
         "  Display Name: " +:+ Base.display_name c;
         "  Title: " +:+ title;
         "  Description: " +:+ description;
         "  Status: " +:+ (if Base.active c then "Active" else "Inactive");
         "  Channel URL: " +:+ Base.channel_url c;
         "  Channel Identifier: " +:+ Base.channel_identifier c;
         "  Service ID: " +:+ Base.service_id c;
         "  User ID: " +:+ Base.user_id c]
    ∧ List.length (split LF_char out)
      = 10 + list_sum (count LF_char
                         <$> [Base.id c; Base.display_name c; title;
                              description; Base.channel_url c;
                              Base.channel_identifier c; Base.service_id c;
                              Base.user_id c]).
Proof.
  intros Hrec. rewrite (record_str self c title description Hrec).
  eexists. split; [reflexivity|]. split.
  - apply Forall_forall. intros p Hp. apply join_contains. by right.
  - rewrite length_split. unfold LF. rewrite count_join.
    rewrite fmap_cons, header_one_line.
    pose proof (zip_count LF_char Layout.labels
                  (Layout.values c title description)
                  labels_one_line eq_refl) as Hlines.
    unfold Layout.lines.
    change (list_sum (0 :: ?l)) with (list_sum l). rewrite Hlines.
    unfold Layout.values. csimpl.
    assert (count LF_char (Layout.status (Base.active c)) = 0) as ->
      by (by destruct (Base.active c)).
    lia.
Qed.

Lemma values_verbatim_witness :
  is_record (extended scenario_channel "Live Show" two_line_description)
    scenario_channel "Live Show" two_line_description
  ∧ ∃ out,
      __str__ (extended scenario_channel "Live Show" two_line_description)
      = Ok out
      ∧ Forall (contains out)
          ["  ID: " +:+ "c1";
           "  Display Name: " +:+ "My Channel";
           "  Title: " +:+ "Live Show";
           "  Description: " +:+ two_line_description;
           "  Status: " +:+ "Active";
           "  Channel URL: " +:+ "https://x.tv/c1";
           "  Channel Identifier: " +:+ "c1-ext";
           "  Service ID: " +:+ "svc1";
           "  User ID: " +:+ "u1"]
      ∧ List.length (split LF_char out) = 11.
Proof.
  assert (is_record (extended scenario_channel "Live Show" two_line_description)
            scenario_channel "Live Show" two_line_description)
    as Hrec by (unfold is_record; reflexivity).
  split; [exact Hrec|].
  exact (values_verbatim _ scenario_channel "Live Show" two_line_description
           Hrec).
Defined.

(** ** Construction *)

(** C9: for every base record and every metadata pair, the constructed
    record holds exactly the union of both field sets: every base field has
    the value it has in the base record, [title] and [description] have the
    values of the pair, and nothing is checked or converted on the way. *)
Theorem init_union (base : gmap string value) (title description : string) :
  dom base = list_to_set Channel.fields →
  ∃ self,
    __init__ (base ∪ meta title description) = Ok self
    ∧ dom self = dom base ∪ dom (meta title description)
    ∧ Forall (λ name, self !! name = base !! name) Channel.fields
    ∧ self !! "title" = Some (VStr title)
    ∧ self !! "description" = Some (VStr description).
Proof.
  intros Hdom. exists (base ∪ meta title description).
  assert (base !! "title" = None ∧ base !! "description" = None) as [Ht Hd].
  { split; apply not_elem_of_dom; rewrite Hdom, elem_of_list_to_set;
      intros Hin; repeat (apply elem_of_cons in Hin as [[=]|Hin]);
      by apply elem_of_nil in Hin. }
  split; [|split; [|split; [|split]]].
  - apply init_Ok. rewrite dom_union_L, Hdom. unfold meta.
    rewrite !dom_insert_L, dom_empty_L.
    unfold field_set, fields, Channel.fields. set_solver.
  - apply dom_union_L.
  - apply Forall_forall. intros name Hname.
    assert (is_Some (base !! name)) as [v Hv].
    { apply elem_of_dom. rewrite Hdom. by apply elem_of_list_to_set. }
    rewrite Hv. by apply lookup_union_Some_l.
  - by rewrite lookup_union_r.
  - by rewrite lookup_union_r.
Qed.

Lemma init_union_witness :
  dom (Base.attrs scenario_channel) = list_to_set Channel.fields
  ∧ ∃ self,
      __init__ (Base.attrs scenario_channel ∪ meta "Live Show" "Daily stream")
      = Ok self
      ∧ dom self = dom (Base.attrs scenario_channel)
                   ∪ dom (meta "Live Show" "Daily stream")
      ∧ Forall (λ name, self !! name = Base.attrs scenario_channel !! name)
          Channel.fields
      ∧ self !! "title" = Some (VStr "Live Show")
      ∧ self !! "description" = Some (VStr "Daily stream").
Proof.
  assert (dom (Base.attrs scenario_channel) = list_to_set Channel.fields)
    as Hdom by reflexivity.
  split; [exact Hdom|].
  exact (init_union (Base.attrs scenario_channel) "Live Show" "Daily stream"
           Hdom).
Defined.

(** *** Rendering from the values of the attributes *)

Lemma str_lookups (self : object) (vi vn vt vd va vu vc vs vr : value)
    (si sn st sd su sc ss sr : string) :
  self !! "id" = Some vi → self !! "display_name" = Some vn →
  self !! "title" = Some vt → self !! "description" = Some vd →
  self !! "active" = Some va → self !! "channel_url" = Some vu →
  self !! "channel_identifier" = Some vc → self !! "service_id" = Some vs →
  self !! "user_id" = Some vr →
  format vi = Ok si → format vn = Ok sn → format vt = Ok st →
  format vd = Ok sd → format vu = Ok su → format vc = Ok sc →
  format vs = Ok ss → format vr = Ok sr →
  __str__ self
  = Ok (join LF
          ["Channel Information:";
           "  ID: " +:+ si;
           "  Display Name: " +:+ sn;
           "  Title: " +:+ st;
           "  Description: " +:+ sd;
           "  Status: " +:+ (if truthy va then "Active" else "Inactive");
           "  Channel URL: " +:+ su;
           "  Channel Identifier: " +:+ sc;
           "  Service ID: " +:+ ss;
           "  User ID: " +:+ sr]).
Proof.
  intros Hi Hn Ht Hd Ha Hu Hc Hs Hr Fi Fn Ft Fd Fu Fc Fs Fr.
  unfold __str__, getattr.
  rewrite Hi, Hn, Ht, Hd, Ha, Hu, Hc, Hs, Hr. simpl.
  rewrite Fi. simpl. rewrite Fn. simpl. rewrite Ft. simpl. rewrite Fd. simpl.
  rewrite Fu. simpl. rewrite Fc. simpl. rewrite Fs. simpl. rewrite Fr.
  reflexivity.
Qed.

(** *** Calls with positional and keyword arguments *)

Lemma fields_NoDup : NoDup fields.
Proof. by apply (bool_decide_unpack _). Qed.

Lemma zip_fst_take {A B : Type} (l : list A) (k : list B) :
  (zip l k).*1 = take (List.length k) l.
Proof.
  revert k. induction l as [|x l IH]; intros [|y k]; simpl; try done.
  by rewrite IH.
Qed.

Lemma repeated_None (positional : list (string * value))
    (kwargs : gmap string value) :
  repeated positional kwargs = None
  ↔ ∀ p, p ∈ positional.*1 → kwargs !! p = None.
Proof.
  unfold repeated. rewrite head_None. split.
  - intros Hnil p Hp. destruct (kwargs !! p) as [v|] eqn:Hv; [|done].
    exfalso. eapply (filter_nil_not_elem_of _ _ p Hnil); [|exact Hp].
    by rewrite Hv.
  - intros Hall. destruct (filter _ _) as [|p l] eqn:E; [done|].
    assert (p ∈ filter (λ p, is_Some (kwargs !! p)) positional.*1) as Hp
      by (rewrite E; left).
    apply list_elem_of_filter in Hp as [[v Hv] Hp].
    rewrite (Hall p Hp) in Hv. done.
Qed.

Lemma construct_keywords (kwargs : gmap string value) :
  construct [] kwargs = __init__ kwargs.
Proof.
  unfold construct. rewrite decide_False by (simpl; lia).
  change (zip fields []) with (@nil (string * value)).
  change (repeated [] kwargs) with (@None string).
  by rewrite list_to_map_nil, (right_id_L ∅ (∪)).
Qed.

Lemma construct_TypeError (args : list value) (kwargs : gmap string value)
    (e : exn) :
  construct args kwargs = Raise e → exn_class e = "TypeError".
Proof.
  unfold construct. case_decide; [by intros [= <-]|].
  destruct (repeated _ _); [by intros [= <-]|]. apply init_TypeError.
Qed.

Lemma construct_Ok_iff (args : list value) (kwargs : gmap string value) :
  (∃ self, construct args kwargs = Ok self)
  ↔ (List.length args ≤ List.length fields)%nat
    ∧ dom kwargs = list_to_set (drop (List.length args) fields).
Proof.
  unfold construct. case_decide as Hlen.
  { split; [by intros [self Hself]|intros [Hle _]; lia]. }
  pose proof fields_NoDup as Hnodup.
  rewrite <- (take_drop (List.length args) fields) in Hnodup.
  apply NoDup_app in Hnodup as (_ & Hdisj & _).
  assert (field_set
          = list_to_set (take (List.length args) fields)
            ∪ list_to_set (drop (List.length args) fields)) as Hsplit.
  { unfold field_set.
    by rewrite <- list_to_set_app_L, take_drop. }
  destruct (repeated _ _) as [p|] eqn:Hrep.
  - split; [by intros [self Hself]|]. intros [_ Hdom]. exfalso.
    unfold repeated in Hrep. apply head_Some_elem_of in Hrep.
    apply list_elem_of_filter in Hrep as [Hset Hp].
    rewrite zip_fst_take in Hp. apply (Hdisj p Hp).
    apply elem_of_dom in Hset. rewrite Hdom in Hset.
    by apply elem_of_list_to_set in Hset.
  - assert (∀ p, p ∈ take (List.length args) fields → p ∉ dom kwargs)
      as Hfree.
    { intros p Hp. apply not_elem_of_dom.
      apply (proj1 (repeated_None _ _) Hrep). by rewrite zip_fst_take. }
    assert (dom (kwargs ∪ list_to_map (zip fields args))
            = dom kwargs ∪ list_to_set (take (List.length args) fields))
      as Hdom.
    { by rewrite dom_union_L, dom_list_to_map_L, zip_fst_take. }
    split.
    + intros [self Hself%init_Ok_inv]. split; [lia|].
      rewrite Hdom, Hsplit in Hself. apply set_eq. intros x.
      apply (proj1 (set_eq _ _)) with (x := x) in Hself.
      rewrite !elem_of_union, !elem_of_list_to_set in Hself.
      rewrite elem_of_list_to_set. split.
      * intros Hx. destruct (proj1 Hself (or_introl Hx)) as [Hp|]; [|done].
        by destruct (Hfree x Hp).
      * intros Hx. destruct (proj2 Hself (or_intror Hx)) as [|Hp]; [done|].
        by destruct (Hdisj x Hp).
    + intros [_ Hkw]. eexists. apply init_Ok.
      rewrite Hdom, Hsplit, Hkw. apply (comm_L (∪)).
Qed.

(** C6, as amended: the construction operation is the generated
    constructor, which takes the nine field values as positional or keyword
    arguments.  It fails exactly when the arguments do not give each
    declared field once, and then with [TypeError]; no value of a field
    makes it fail.  A [title] or [description] that is null ([None] below,
    the other one null or any string) is accepted and rendered as [None];
    with an empty-string [title] and [description] construction succeeds and
    rendering prints the two labels with an empty value. *)
Theorem construct_fails_iff_unbound
    (args : list value) (kwargs : gmap string value) (c : Base.t)
    (title description : option string) :
  ((∃ e, construct args kwargs = Raise e)
   ↔ ¬ ((List.length args ≤ List.length fields)%nat
        ∧ dom kwargs = list_to_set (drop (List.length args) fields)))
  ∧ (∀ e, construct args kwargs = Raise e → exn_class e = "TypeError")
  ∧ (self ← construct []
              (<["title" := from_option VStr VNone title]>
                 (<["description" := from_option VStr VNone description]>
                    (Base.attrs c)));
     __str__ self)
    = Ok (join LF
            ["Channel Information:";
             "  ID: " +:+ Base.id c;
             "  Display Name: " +:+ Base.display_name c;
             "  Title: " +:+ default "None" title;
             "  Description: " +:+ default "None" description;
             "  Status: " +:+ (if Base.active c then "Active" else "Inactive");
             "  Channel URL: " +:+ Base.channel_url c;
             "  Channel Identifier: " +:+ Base.channel_identifier c;
             "  Service ID: " +:+ Base.service_id c;
             "  User ID: " +:+ Base.user_id c])
  ∧ (self ← construct [] (extended c EmptyString EmptyString); __str__ self)
    = Ok (join LF
            ["Channel Information:";
             "  ID: " +:+ Base.id c;
             "  Display Name: " +:+ Base.display_name c;
             "  Title: ";
             "  Description: ";
             "  Status: " +:+ (if Base.active c then "Active" else "Inactive");
             "  Channel URL: " +:+ Base.channel_url c;
             "  Channel Identifier: " +:+ Base.channel_identifier c;
             "  Service ID: " +:+ Base.service_id c;
             "  User ID: " +:+ Base.user_id c]).
Proof.
  split; [|split; [|split]].
  - rewrite <- construct_Ok_iff. split.
    + intros [e He] [self Hself]. congruence.
    + intros Hno. destruct (construct args kwargs) as [self|e] eqn:Hc;
        [|by eexists]. destruct Hno. by eexists.
  - apply construct_TypeError.
  - rewrite construct_keywords, init_Ok.
    + simpl.
      apply (str_lookups _ (VStr (Base.id c)) (VStr (Base.display_name c))
               (from_option VStr VNone title)
               (from_option VStr VNone description) (VBool (Base.active c))
               (VStr (Base.channel_url c)) (VStr (Base.channel_identifier c))
               (VStr (Base.service_id c)) (VStr (Base.user_id c)));
        try reflexivity.
      * by destruct title.
      * by destruct description.
    + unfold Base.attrs. rewrite !dom_insert_L, dom_empty_L.
      unfold field_set, fields, Channel.fields. set_solver.
  - rewrite construct_keywords, compose_render. reflexivity.
Qed.

Lemma construct_fails_iff_unbound_witness :
  (∃ self, construct [VStr "c1"; VStr "My Channel"; VBool true]
             (delete "active"
                (delete "display_name" (delete "id" scenario_kwargs)))
           = Ok self)
  ∧ ∃ e, construct [VStr "c1"] scenario_kwargs = Raise e
         ∧ exn_class e = "TypeError".
Proof.
  destruct (construct_fails_iff_unbound [VStr "c1"] scenario_kwargs
              scenario_channel None None) as (Hiff & Hclass & _).
  split; [eexists; reflexivity|].
  assert (¬ ((List.length [VStr "c1"] ≤ List.length fields)%nat
             ∧ dom scenario_kwargs
               = list_to_set (drop (List.length [VStr "c1"]) fields)))
    as Hne by (apply (bool_decide_unpack _); vm_compute; exact I).
  destruct (proj2 Hiff Hne) as [e He].
  exists e. split; [exact He|exact (Hclass e He)].
Defined.

(** C6, as stated, fails: a null [title] is accepted and rendered as
    [None], and a call without [title] raises [TypeError], which is not a
    [CompositionError]. *)
Lemma init_null_title_accepted :
  (self ← __init__ (<["title" := VNone]> scenario_kwargs); __str__ self)
  = Ok (join LF
          ["Channel Information:";
           "  ID: c1";
           "  Display Name: My Channel";
           "  Title: None";
           "  Description: Daily stream";
           "  Status: Active";
           "  Channel URL: https://x.tv/c1";
           "  Channel Identifier: c1-ext";
           "  Service ID: svc1";
           "  User ID: u1"])
  ∧ __init__ (delete "title" scenario_kwargs) = Raise (TypeError "title")
  ∧ exn_class (TypeError "title") ≠ "CompositionError".
Proof.
  split; [vm_compute; reflexivity|]. split; [vm_compute; reflexivity|].
  discriminate.
Qed.

(** C8, as amended: the class is not frozen.  Construction stores the
    values it is given and rendering only reads them, so as long as no field
    is assigned, the values read at render time are the values supplied at
    construction; an assignment to a declared field of a constructed record
    succeeds and replaces that field and no other. *)
Theorem record_not_frozen (kwargs : gmap string value) (self : object) :
  __init__ kwargs = Ok self →
  Forall (λ name, ∃ v, kwargs !! name = Some v ∧ getattr self name = Ok v)
    fields
  ∧ __str__ self = __str__ kwargs
  ∧ ∀ name v, name ∈ fields →
      ∃ self', __setattr__ self name v = Ok self'
               ∧ self' !! name = Some v
               ∧ ∀ other, other ≠ name → self' !! other = self !! other.
Proof.
  intros Hinit. pose proof (init_Ok_inv _ _ Hinit) as Hdom.
  rewrite (init_Ok _ Hdom) in Hinit. injection Hinit as <-.
  split; [|split; [done|]].
  - apply Forall_forall. intros name Hname.
    assert (is_Some (kwargs !! name)) as [v Hv].
    { apply elem_of_dom. rewrite Hdom. by apply elem_of_list_to_set. }
    exists v. unfold getattr. by rewrite Hv.
  - intros name v Hname. exists (<[name := v]> kwargs).
    unfold __setattr__. rewrite decide_True by done.
    split; [done|]. split; [by rewrite lookup_insert_eq|].
    intros other Hother. by rewrite lookup_insert_ne.
Qed.

Lemma record_not_frozen_witness :
  __init__ scenario_kwargs = Ok scenario_kwargs
  ∧ Forall (λ name, ∃ v, scenario_kwargs !! name = Some v
                         ∧ getattr scenario_kwargs name = Ok v) fields
  ∧ __str__ scenario_kwargs = __str__ scenario_kwargs
  ∧ ∀ name v, name ∈ fields →
      ∃ self', __setattr__ scenario_kwargs name v = Ok self'
               ∧ self' !! name = Some v
               ∧ ∀ other, other ≠ name →
                   self' !! other = scenario_kwargs !! other.
Proof.
  assert (__init__ scenario_kwargs = Ok scenario_kwargs) as Hinit
    by reflexivity.
  split; [exact Hinit|].
  exact (record_not_frozen scenario_kwargs scenario_kwargs Hinit).
Defined.

(** C8, as stated, fails: the title of the constructed scenario record can
    be reassigned, and the record then renders with the new title. *)
Lemma title_reassigned :
  ∃ self self',
    __init__ scenario_kwargs = Ok self
    ∧ __setattr__ self "title" (VStr "Replay") = Ok self'
    ∧ getattr self "title" = Ok (VStr "Live Show")
    ∧ getattr self' "title" = Ok (VStr "Replay")
    ∧ __str__ self'
      = Ok (join LF
              ["Channel Information:";
               "  ID: c1";
               "  Display Name: My Channel";
               "  Title: Replay";
               "  Description: Daily stream";
               "  Status: Active";
               "  Channel URL: https://x.tv/c1";
               "  Channel Identifier: c1-ext";
               "  Service ID: svc1";
               "  User ID: u1"])
    ∧ __str__ self' ≠ __str__ self.
Proof.
  exists scenario_kwargs, (<["title" := VStr "Replay"]> scenario_kwargs).
  repeat split; try (vm_compute; reflexivity).
  vm_compute. discriminate.
Qed.

(** ** Rendering of arbitrary objects *)

Lemma Ok_inj {A : Type} (a b : A) : Ok a = Ok b → a = b.
Proof. by intros [=]. Qed.

Lemma complete_lookup (self : object) (name : string) :
  complete self → name ∈ fields → is_Some (self !! name).
Proof. intros Hall Hname. exact (proj1 (Forall_forall _ _) Hall name Hname). Qed.

Lemma one_line_sum (c : ascii) (vs : list string) :
  Forall (λ v, count c v = 0) vs ↔ list_sum (count c <$> vs) = 0.
Proof.
  induction vs as [|v vs IH]; [done|].
  rewrite Forall_cons, IH, fmap_cons.
  change (list_sum (?x :: ?l)) with (x + list_sum l). lia.
Qed.

Lemma fields_reads (name : string) : name ∈ fields ↔ name ∈ reads.
Proof.
  unfold fields, Channel.fields, reads. simpl app.
  split; intros Hin;
    repeat (apply elem_of_cons in Hin as [->|Hin]; [by repeat constructor|]);
    by apply elem_of_nil in Hin.
Qed.

(** One replacement field of two renderings side by side: the slot is set
    in both objects or in neither, by the agreement [H]. *)
Lemma reads_interpolated (name : string) :
  name ∈ reads ↔ name = "active" ∨ name ∈ interpolated.
Proof.
  unfold reads, interpolated. split.
  - intros Hin.
    repeat (apply elem_of_cons in Hin as [->|Hin];
            [(by left) || (right; by repeat constructor)|]).
    by apply elem_of_nil in Hin.
  - intros [->|Hin]; [by repeat constructor|].
    repeat (apply elem_of_cons in Hin as [->|Hin]; [by repeat constructor|]).
    by apply elem_of_nil in Hin.
Qed.

Lemma active_not_interpolated : "active" ∉ interpolated.
Proof.
  unfold interpolated. intros Hin.
  repeat (apply elem_of_cons in Hin as [[=]|Hin]).
  by apply elem_of_nil in Hin.
Qed.

Lemma format_Raise (v : value) (e : exn) :
  format v = Raise e →
  ∃ z, v = VInt z ∧ (over_long_int ≤ Z.abs z)%Z
       ∧ e = ValueError "int_max_str_digits".
Proof.
  destruct v as [s|[|]|z|]; try discriminate.
  unfold format, int_to_str. fold over_long_int.
  destruct (Z.ltb_spec (Z.abs z) over_long_int) as [|Hge]; [discriminate|].
  intros [= <-]. by exists z.
Qed.

Lemma format_small (z : Z) :
  (Z.abs z < over_long_int)%Z → format (VInt z) = Ok (pretty z).
Proof.
  intros Hlt. unfold format, int_to_str. fold over_long_int.
  by destruct (Z.ltb_spec (Z.abs z) over_long_int) as [|Hge]; [|lia].
Qed.

(** One replacement field of [__str__]: the attribute is read and, when it
    is set, its value is formatted. *)
Ltac read_field self name :=
  destruct (self !! name) as [?v|]; [|reflexivity];
  try match goal with
      | |- context [format ?w] =>
          is_var w; destruct (format w) as [?s|?e]; [|reflexivity]
      end.

Lemma str_field_text (self : object) :
  __str__ self
  = (s_id ← field_text self "id";
     s_display_name ← field_text self "display_name";
     s_title ← field_text self "title";
     s_description ← field_text self "description";
     s_status ← field_text self "active";
     s_channel_url ← field_text self "channel_url";
     s_channel_identifier ← field_text self "channel_identifier";
     s_service_id ← field_text self "service_id";
     s_user_id ← field_text self "user_id";
     Ok (join LF
           ["Channel Information:";
            "  ID: " +:+ s_id;
            "  Display Name: " +:+ s_display_name;
            "  Title: " +:+ s_title;
            "  Description: " +:+ s_description;
            "  Status: " +:+ s_status;
            "  Channel URL: " +:+ s_channel_url;
            "  Channel Identifier: " +:+ s_channel_identifier;
            "  Service ID: " +:+ s_service_id;
            "  User ID: " +:+ s_user_id])).
Proof.
  unfold __str__, field_text, getattr.
  read_field self "id".
  read_field self "display_name".
  read_field self "title".
  read_field self "description".
  read_field self "active".
  read_field self "channel_url".
  read_field self "channel_identifier".
  read_field self "service_id".
  read_field self "user_id".
  reflexivity.
Qed.

Lemma field_text_Ok_iff (self : object) (name : string) :
  (∃ s, field_text self name = Ok s)
  ↔ ∃ v, self !! name = Some v ∧ (name = "active" ∨ ∃ s, format v = Ok s).
Proof.
  unfold field_text, getattr.
  destruct (self !! name) as [v|]; simpl.
  - case_decide as Hname.
    + split; [intros _; exists v; by split; [|left]|intros _; by eexists].
    + split.
      * intros Hs. exists v. split; [done|by right].
      * by intros (w & [= <-] & [?|Hs]).
  - split; [by intros [s Hs]|by intros (v & Hv & _)].
Qed.

Lemma field_text_Raise (self : object) (name : string) (e : exn) :
  field_text self name = Raise e →
  (self !! name = None ∧ e = AttributeError name)
  ∨ (name ≠ "active"
     ∧ ∃ z, self !! name = Some (VInt z) ∧ (over_long_int ≤ Z.abs z)%Z
            ∧ e = ValueError "int_max_str_digits").
Proof.
  unfold field_text, getattr.
  destruct (self !! name) as [v|]; simpl; [|intros [= <-]; by left].
  case_decide as Hname; [done|].
  intros (z & -> & Hz & ->)%format_Raise. right. split; [done|by exists z].
Qed.

(** The step of a proof that follows [__str__] field by field. *)
Ltac field_step self name :=
  let s := fresh "s" in
  let e := fresh "e" in
  let E := fresh "E" in
  destruct (field_text self name) as [s|e] eqn:E; simpl.

Lemma str_Raise_field (self : object) (e : exn) :
  __str__ self = Raise e →
  ∃ name, name ∈ reads ∧ field_text self name = Raise e.
Proof.
  rewrite str_field_text.
  field_step self "id";
    [|intros [= <-]; eexists; split; [|eassumption]; by repeat constructor].
  field_step self "display_name";
    [|intros [= <-]; eexists; split; [|eassumption]; by repeat constructor].
  field_step self "title";
    [|intros [= <-]; eexists; split; [|eassumption]; by repeat constructor].
  field_step self "description";
    [|intros [= <-]; eexists; split; [|eassumption]; by repeat constructor].
  field_step self "active";
    [|intros [= <-]; eexists; split; [|eassumption]; by repeat constructor].
  field_step self "channel_url";
    [|intros [= <-]; eexists; split; [|eassumption]; by repeat constructor].
  field_step self "channel_identifier";
    [|intros [= <-]; eexists; split; [|eassumption]; by repeat constructor].
  field_step self "service_id";
    [|intros [= <-]; eexists; split; [|eassumption]; by repeat constructor].
  field_step self "user_id";
    [|intros [= <-]; eexists; split; [|eassumption]; by repeat constructor].
  done.
Qed.

Lemma str_Ok_inv (self : object) (out : string) :
  __str__ self = Ok out →
  ∃ si sn st sd sa su sc ss sr,
    (field_text self "id" = Ok si
     ∧ field_text self "display_name" = Ok sn
     ∧ field_text self "title" = Ok st
     ∧ field_text self "description" = Ok sd
     ∧ field_text self "active" = Ok sa
     ∧ field_text self "channel_url" = Ok su
     ∧ field_text self "channel_identifier" = Ok sc
     ∧ field_text self "service_id" = Ok ss
     ∧ field_text self "user_id" = Ok sr)
    ∧ out = join LF
              ["Channel Information:";
               "  ID: " +:+ si;
               "  Display Name: " +:+ sn;
               "  Title: " +:+ st;
               "  Description: " +:+ sd;
               "  Status: " +:+ sa;
               "  Channel URL: " +:+ su;
               "  Channel Identifier: " +:+ sc;
               "  Service ID: " +:+ ss;
               "  User ID: " +:+ sr].
Proof.
  rewrite str_field_text.
  field_step self "id"; [|done].
  field_step self "display_name"; [|done].
  field_step self "title"; [|done].
  field_step self "description"; [|done].
  field_step self "active"; [|done].
  field_step self "channel_url"; [|done].
  field_step self "channel_identifier"; [|done].
  field_step self "service_id"; [|done].
  field_step self "user_id"; [|done].
  intros Hout%Ok_inj. subst out.
  by eexists _, _, _, _, _, _, _, _, _.
Qed.

Lemma str_Ok_fields (self : object) :
  (∃ out, __str__ self = Ok out)
  ↔ Forall (λ name, ∃ s, field_text self name = Ok s) reads.
Proof.
  split.
  - intros [out Hout]. apply str_Ok_inv in Hout
      as (si & sn & st & sd & sa & su & sc & ss & sr & Hf & _).
    destruct Hf as (? & ? & ? & ? & ? & ? & ? & ? & ?).
    unfold reads. repeat constructor; by eexists.
  - unfold reads. intros Hall.
    apply Forall_cons in Hall as [[si Hi] Hall].
    apply Forall_cons in Hall as [[sn Hn] Hall].
    apply Forall_cons in Hall as [[st Ht] Hall].
    apply Forall_cons in Hall as [[sd Hd] Hall].
    apply Forall_cons in Hall as [[sa Ha] Hall].
    apply Forall_cons in Hall as [[su Hu] Hall].
    apply Forall_cons in Hall as [[sc Hc] Hall].
    apply Forall_cons in Hall as [[ss Hs] Hall].
    apply Forall_cons in Hall as [[sr Hr] _].
    rewrite str_field_text, Hi, Hn, Ht, Hd, Ha, Hu, Hc, Hs, Hr.
    by eexists.
Qed.

Lemma renderable_fields (self : object) :
  complete self ∧ formattable self
  ↔ Forall (λ name, ∃ s, field_text self name = Ok s) reads.
Proof.
  split.
  - intros [Hset Hfmt]. apply Forall_forall. intros name Hname.
    apply field_text_Ok_iff.
    destruct (complete_lookup self name Hset) as [v Hv];
      [by apply fields_reads|].
    exists v. split; [done|].
    apply reads_interpolated in Hname as [->|Hname]; [by left|right].
    exact (proj1 (Forall_forall _ _) Hfmt name Hname v Hv).
  - intros Hall. split.
    + apply Forall_forall. intros name Hname%fields_reads.
      destruct (proj1 (field_text_Ok_iff self name)
                  (proj1 (Forall_forall _ _) Hall name Hname))
        as (v & Hv & _).
      by exists v.
    + apply Forall_forall. intros name Hname v Hv.
      assert (name ∈ reads) as Hread
        by (apply reads_interpolated; by right).
      destruct (proj1 (field_text_Ok_iff self name)
                  (proj1 (Forall_forall _ _) Hall name Hread))
        as (w & Hw & [->|Hs]).
      * by destruct active_not_interpolated.
      * rewrite Hv in Hw. by injection Hw as ->.
Qed.

Lemma field_text_agree (self other : object) (name : string) :
  name ≠ "active" →
  format <$> self !! name = format <$> other !! name →
  field_text self name = field_text other name.
Proof.
  intros Hname Hagree. unfold field_text, getattr.
  destruct (self !! name) as [v|], (other !! name) as [w|];
    try discriminate Hagree; [|done].
  apply (inj Some) in Hagree. simpl. by rewrite !decide_False.
Qed.

Lemma field_text_agree_active (self other : object) :
  truthy <$> self !! "active" = truthy <$> other !! "active" →
  field_text self "active" = field_text other "active".
Proof.
  intros Hagree. unfold field_text, getattr.
  destruct (self !! "active") as [v|], (other !! "active") as [w|];
    try discriminate Hagree; [|done].
  apply (inj Some) in Hagree. simpl. by rewrite Hagree.
Qed.

(** X1: the rendered text depends only on the text that each field formats
    to and on the truth value of [active], not on the types of the values:
    two objects that agree on these render to the same result. *)
Theorem str_depends_on_text (self other : object) :
  Forall (λ name, format <$> self !! name = format <$> other !! name)
    ["id"; "display_name"; "title"; "description"; "channel_url";
     "channel_identifier"; "service_id"; "user_id"] →
  truthy <$> self !! "active" = truthy <$> other !! "active" →
  __str__ self = __str__ other.
Proof.
  intros Htext Ha.
  assert (∀ name, name ∈ reads →
            field_text self name = field_text other name) as Heq.
  { intros name [->|Hname]%reads_interpolated.
    - by apply field_text_agree_active.
    - apply field_text_agree.
      + intros ->. by destruct active_not_interpolated.
      + exact (proj1 (Forall_forall _ _) Htext name Hname). }
  rewrite !str_field_text.
  rewrite !Heq by (by repeat constructor). reflexivity.
Qed.

Lemma str_depends_on_text_witness :
  Forall (λ name,
            format <$> (<["id" := VInt 42]>
                          (<["active" := VInt 1]> scenario_kwargs)) !! name
            = format <$> (<["id" := VStr "42"]>
                            (<["active" := VStr "yes"]> scenario_kwargs)) !! name)
    ["id"; "display_name"; "title"; "description"; "channel_url";
     "channel_identifier"; "service_id"; "user_id"]
  ∧ __str__ (<["id" := VInt 42]> (<["active" := VInt 1]> scenario_kwargs))
    = __str__ (<["id" := VStr "42"]>
                 (<["active" := VStr "yes"]> scenario_kwargs)).
Proof.
  assert (Forall (λ name,
            format <$> (<["id" := VInt 42]>
                          (<["active" := VInt 1]> scenario_kwargs)) !! name
            = format <$> (<["id" := VStr "42"]>
                            (<["active" := VStr "yes"]> scenario_kwargs)) !! name)
    ["id"; "display_name"; "title"; "description"; "channel_url";
     "channel_identifier"; "service_id"; "user_id"]) as Htext
    by (repeat constructor).
  split; [exact Htext|].
  exact (str_depends_on_text _ _ Htext eq_refl).
Defined.


(** X2: for field values that are strings, booleans, ints or [None],
    rendering succeeds exactly when all nine declared attributes are set and
    no interpolated value is an int with more digits than the limit; when
    it fails, the exception is an [AttributeError] for a declared attribute
    that is unset, or the [ValueError] of such an int. *)
Theorem str_Ok_iff_renderable (self : object) :
  ((∃ out, __str__ self = Ok out) ↔ complete self ∧ formattable self)
  ∧ ∀ e, __str__ self = Raise e →
      (∃ name, name ∈ fields ∧ self !! name = None ∧ e = AttributeError name)
      ∨ (∃ name z, name ∈ interpolated ∧ self !! name = Some (VInt z)
                   ∧ (over_long_int ≤ Z.abs z)%Z
                   ∧ e = ValueError "int_max_str_digits").
Proof.
  split; [by rewrite str_Ok_fields, renderable_fields|].
  intros e (name & Hname & Hfield)%str_Raise_field.
  apply field_text_Raise in Hfield as [[Hunset ->]|(Hne & z & Hz & Hlong & ->)].
  - left. exists name. by rewrite fields_reads.
  - right. exists name, z. split; [|done].
    by apply reads_interpolated in Hname as [->|Hname].
Qed.

(** X3: the exception of a failed rendering is that of the first
    replacement field, in the order of the template, that fails, where
    [title] and [description] are read before [active]: an attribute that
    is unset, or an int that is too long, later in the template is not
    reached. *)
Theorem str_first_failure
    (self : object) (pre post : list string) (name : string) (e : exn) :
  reads = (pre ++ name :: post)%list →
  Forall (λ n, ∃ s, field_text self n = Ok s) pre →
  field_text self name = Raise e →
  __str__ self = Raise e.
Proof.
  intros Hsplit Hpre Hname. rewrite str_field_text. unfold reads in Hsplit.
  repeat (destruct pre as [|p pre];
    [ simplify_eq/=; by rewrite Hname
    | apply Forall_cons in Hpre as [[? Hset] Hpre];
      simplify_eq/=; rewrite Hset; clear Hset; simpl ]).
Qed.

Lemma str_first_failure_witness :
  reads = (["id"; "display_name"; "title"] ++ "description"
           :: ["active"; "channel_url"; "channel_identifier"; "service_id";
               "user_id"])%list
  ∧ Forall (λ n, ∃ s, field_text
                        (delete "description" (delete "active" scenario_kwargs))
                        n = Ok s)
      ["id"; "display_name"; "title"]
  ∧ __str__ (delete "description" (delete "active" scenario_kwargs))
    = Raise (AttributeError "description").
Proof.
  assert (Forall (λ n, ∃ s, field_text
                        (delete "description" (delete "active" scenario_kwargs))
                        n = Ok s)
            ["id"; "display_name"; "title"]) as Hpre
    by (repeat constructor; eexists; reflexivity).
  split; [reflexivity|]. split; [exact Hpre|].
  exact (str_first_failure _ ["id"; "display_name"; "title"]
           ["active"; "channel_url"; "channel_identifier"; "service_id";
            "user_id"] "description" _ eq_refl Hpre eq_refl).
Defined.

(** An int of 4301 digits in [id] makes rendering raise [ValueError], and
    it does so before [display_name], which is unset, is looked up. *)
Example str_over_long_id :
  __str__ (<["id" := VInt over_long_int]>
             (delete "display_name" scenario_kwargs))
  = Raise (ValueError "int_max_str_digits").
Proof. vm_compute. reflexivity. Qed.

(** X4: a record whose values are single lines can be read back from its
    rendering: no other record, single-line or not, renders to the same
    text. *)
Theorem str_injective_single_line
    (self other : object) (c c' : Base.t) (t d t' d' : string) :
  is_record self c t d → is_record other c' t' d' →
  Forall (λ v, count LF_char v = 0) (Layout.values c t d) →
  __str__ self = __str__ other →
  c = c' ∧ t = t' ∧ d = d'.
Proof.
  intros Hself Hother Hone.
  rewrite (record_str self c t d Hself), (record_str other c' t' d' Hother).
  intros Hjoin%Ok_inj. unfold LF in Hjoin.
  assert (Forall (λ p, count LF_char p = 0) (Layout.lines c t d)) as Hlines
    by (apply zip_one_line; [exact labels_one_line|exact Hone]).
  assert (Forall (λ v, count LF_char v = 0) (Layout.values c' t' d')) as Hone'.
  { pose proof (f_equal (count LF_char) Hjoin) as Hcount.
    rewrite !count_join, !fmap_cons, header_one_line in Hcount.
    change (list_sum (0 :: ?l)) with (list_sum l) in Hcount.
    unfold Layout.lines in Hcount.
    rewrite !zip_count in Hcount by (exact labels_one_line || done).
    apply one_line_sum. apply one_line_sum in Hone.
    set (n := list_sum (count LF_char <$> Layout.values c t d)) in *.
    set (n' := list_sum (count LF_char <$> Layout.values c' t' d')) in *.
    simpl in Hcount. lia. }
  assert (Forall (λ p, count LF_char p = 0) (Layout.lines c' t' d')) as Hlines'
    by (apply zip_one_line; [exact labels_one_line|exact Hone']).
  pose proof (f_equal (split LF_char) Hjoin) as Hsplit.
  rewrite !split_join in Hsplit
    by (done || (constructor; [exact header_one_line|done])).
  destruct c as [i n a u ci s r], c' as [i' n' a' u' ci' s' r'].
  injection Hsplit as Hi Hn Ht Hd Ha Hu Hc Hs Hr.
  rewrite !app_nil_l in Hi, Hn, Ht, Hd, Ha, Hu, Hc, Hs, Hr.
  assert (a = a') as -> by (by destruct a, a').
  by subst.
Qed.

Lemma str_injective_single_line_witness :
  is_record scenario_kwargs scenario_channel "Live Show" "Daily stream"
  ∧ Forall (λ v, count LF_char v = 0)
      (Layout.values scenario_channel "Live Show" "Daily stream")
  ∧ scenario_channel = scenario_channel
  ∧ "Live Show" = "Live Show" ∧ "Daily stream" = "Daily stream".
Proof.
  assert (is_record scenario_kwargs scenario_channel "Live Show" "Daily stream")
    as Hrec by (unfold is_record, scenario_kwargs; reflexivity).
  assert (Forall (λ v, count LF_char v = 0)
            (Layout.values scenario_channel "Live Show" "Daily stream"))
    as Hone by (repeat constructor).
  split; [exact Hrec|]. split; [exact Hone|].
  exact (str_injective_single_line scenario_kwargs scenario_kwargs
           scenario_channel scenario_channel "Live Show" "Daily stream"
           "Live Show" "Daily stream" Hrec Hrec Hone eq_refl).
Defined.

(** X5: with a newline in a value the rendering is ambiguous: a record
    whose [id] ends with a line that looks like a Display Name line renders
    to the same text as the record in which that line is part of
    [display_name], although the two records differ. *)
Theorem label_in_value_collision (c : Base.t) (a b x t d : string) :
  let c1 :=
    {| Base.id := a +:+ LF +:+ "  Display Name: " +:+ b;
       Base.display_name := x;
       Base.active := Base.active c;
       Base.channel_url := Base.channel_url c;
       Base.channel_identifier := Base.channel_identifier c;
       Base.service_id := Base.service_id c;
       Base.user_id := Base.user_id c |} in
  let c2 :=
    {| Base.id := a;
       Base.display_name := b +:+ LF +:+ "  Display Name: " +:+ x;
       Base.active := Base.active c;
       Base.channel_url := Base.channel_url c;
       Base.channel_identifier := Base.channel_identifier c;
       Base.service_id := Base.service_id c;
       Base.user_id := Base.user_id c |} in
  c1 ≠ c2
  ∧ (self ← __init__ (extended c1 t d); __str__ self)
    = (self ← __init__ (extended c2 t d); __str__ self).
Proof.
  intros c1 c2. split.
  - intros Heq. apply (f_equal Base.id) in Heq. simpl in Heq.
    rewrite <- (app_nil_r a) in Heq at 2.
    apply (inj (String.app a)) in Heq. discriminate Heq.
  - rewrite !compose_render. f_equal.
    unfold Layout.lines, Layout.values, c1, c2. cbn [zip_with Layout.labels].
    cbn [Base.id Base.display_name].
    rewrite !join_step. rewrite !app_assoc. reflexivity.
Qed.

(** X6: for field values that are strings, booleans, ints or [None], a
    record that the constructor returns never fails to render for an unset
    attribute: rendering succeeds when no interpolated value is an int with
    more digits than the limit, and otherwise raises [ValueError]. *)
Theorem init_then_str (kwargs : gmap string value) (self : object) :
  __init__ kwargs = Ok self →
  (formattable self → ∃ out, __str__ self = Ok out)
  ∧ ∀ e, __str__ self = Raise e → e = ValueError "int_max_str_digits".
Proof.
  intros Hinit. pose proof (init_Ok_inv _ _ Hinit) as Hdom.
  rewrite (init_Ok _ Hdom) in Hinit. apply Ok_inj in Hinit as <-.
  assert (complete kwargs) as Hset.
  { apply Forall_forall. intros name Hname.
    apply elem_of_dom. rewrite Hdom. by apply elem_of_list_to_set. }
  split.
  - intros Hfmt. by apply str_Ok_fields, renderable_fields.
  - intros e (name & Hname & Hfield)%str_Raise_field.
    apply field_text_Raise in Hfield as [[Hunset _]|(_ & z & _ & _ & ->)];
      [|done].
    destruct (complete_lookup kwargs name Hset) as [v Hv];
      [by apply fields_reads|congruence].
Qed.

Lemma init_then_str_witness :
  __init__ (<["title" := VNone]> (<["id" := VInt 7]> scenario_kwargs))
  = Ok (<["title" := VNone]> (<["id" := VInt 7]> scenario_kwargs))
  ∧ formattable (<["title" := VNone]> (<["id" := VInt 7]> scenario_kwargs))
  ∧ ∃ out,
      __str__ (<["title" := VNone]> (<["id" := VInt 7]> scenario_kwargs))
      = Ok out.
Proof.
  assert (__init__ (<["title" := VNone]> (<["id" := VInt 7]> scenario_kwargs))
          = Ok (<["title" := VNone]> (<["id" := VInt 7]> scenario_kwargs)))
    as Hinit by reflexivity.
  assert (formattable
            (<["title" := VNone]> (<["id" := VInt 7]> scenario_kwargs)))
    as Hfmt
    by (repeat constructor; intros v [= <-]; eexists; reflexivity).
  split; [exact Hinit|]. split; [exact Hfmt|].
  exact (proj1 (init_then_str _ _ Hinit) Hfmt).
Defined.

(** X7: assigning a value that can be formatted (a string, a boolean,
    [None], or an int within the digit limit) never makes a renderable
    record unrenderable: if rendering succeeded before a successful
    assignment, it succeeds after it. *)
Theorem setattr_keeps_renderable
    (self self' : object) (name : string) (v : value) (out text : string) :
  __str__ self = Ok out →
  format v = Ok text →
  __setattr__ self name v = Ok self' →
  ∃ out', __str__ self' = Ok out'.
Proof.
  intros Hout Hv. unfold __setattr__.
  case_decide; [|done]. intros <-%Ok_inj.
  assert (complete self ∧ formattable self) as [Hset Hfmt]
    by (apply renderable_fields, str_Ok_fields; by eexists).
  apply str_Ok_fields, renderable_fields. split.
  - unfold complete in *. eapply Forall_impl; [exact Hset|].
    intros n [w Hw]. simpl. destruct (decide (name = n)) as [->|Hne].
    + rewrite lookup_insert_eq. by eexists.
    + rewrite lookup_insert_ne by done. by eexists.
  - unfold formattable in *. eapply Forall_impl; [exact Hfmt|].
    intros n Hn w. simpl. destruct (decide (name = n)) as [->|Hne].
    + rewrite lookup_insert_eq. intros [= <-]. by eexists.
    + rewrite lookup_insert_ne by done. apply Hn.
Qed.

Lemma setattr_keeps_renderable_witness :
  __str__ scenario_kwargs = Ok scenario_output
  ∧ format (VInt 7) = Ok "7"
  ∧ __setattr__ scenario_kwargs "id" (VInt 7)
    = Ok (<["id" := VInt 7]> scenario_kwargs)
  ∧ ∃ out', __str__ (<["id" := VInt 7]> scenario_kwargs) = Ok out'.
Proof.
  assert (__str__ scenario_kwargs = Ok scenario_output) as Hout by reflexivity.
  assert (format (VInt 7) = Ok "7") as Hv by reflexivity.
  assert (__setattr__ scenario_kwargs "id" (VInt 7)
          = Ok (<["id" := VInt 7]> scenario_kwargs)) as Hset by reflexivity.
  split; [exact Hout|]. split; [exact Hv|]. split; [exact Hset|].
  exact (setattr_keeps_renderable _ _ _ _ _ _ Hout Hv Hset).
Defined.

(** Without the condition on the value the property fails: after [id] is
    assigned an int of 4301 digits, the scenario record no longer
    renders. *)
Example setattr_over_long_id :
  (self ← __setattr__ scenario_kwargs "id" (VInt over_long_int); __str__ self)
  = Raise (ValueError "int_max_str_digits").
Proof. vm_compute. reflexivity. Qed.

(** X8: assigning a new title and a new description to a record and
    rendering it gives the same text as composing the base record with the
    new metadata and rendering that. *)
Theorem setattr_metadata_rendered
    (self : object) (c : Base.t) (t d t' d' : string) :
  is_record self c t d →
  ∃ self1 self2,
    __setattr__ self "title" (VStr t') = Ok self1
    ∧ __setattr__ self1 "description" (VStr d') = Ok self2
    ∧ __str__ self2
      = (fresh ← __init__ (extended c t' d'); __str__ fresh).
Proof.
  intros Hrec.
  exists (<["title" := VStr t']> self),
         (<["description" := VStr d']> (<["title" := VStr t']> self)).
  split; [reflexivity|]. split; [reflexivity|].
  rewrite compose_render.
  apply (str_lookups _ (VStr (Base.id c)) (VStr (Base.display_name c))
           (VStr t') (VStr d') (VBool (Base.active c))
           (VStr (Base.channel_url c)) (VStr (Base.channel_identifier c))
           (VStr (Base.service_id c)) (VStr (Base.user_id c)));
    try reflexivity;
    try (rewrite !lookup_insert_ne by done;
         by apply (record_lookup self c t d Hrec)).
  - rewrite lookup_insert_ne by done. by rewrite lookup_insert_eq.
  - by rewrite lookup_insert_eq.
Qed.

Lemma setattr_metadata_rendered_witness :
  is_record scenario_kwargs scenario_channel "Live Show" "Daily stream"
  ∧ ∃ self1 self2,
      __setattr__ scenario_kwargs "title" (VStr "Replay") = Ok self1
      ∧ __setattr__ self1 "description" (VStr "Recorded") = Ok self2
      ∧ __str__ self2
        = (fresh ← __init__ (extended scenario_channel "Replay" "Recorded");
           __str__ fresh).
Proof.
  assert (is_record scenario_kwargs scenario_channel "Live Show" "Daily stream")
    as Hrec by (unfold is_record, scenario_kwargs; reflexivity).
  split; [exact Hrec|].
  exact (setattr_metadata_rendered scenario_kwargs scenario_channel
           "Live Show" "Daily stream" "Replay" "Recorded" Hrec).
Defined.

(** X9: whatever the values, a rendering that succeeds begins with the
    header line and has at least ten lines. *)
Theorem str_header_and_line_count (self : object) (out : string) :
  __str__ self = Ok out →
  startswith out ("Channel Information:" +:+ LF)
  ∧ (10 ≤ List.length (split LF_char out))%nat.
Proof.
  intros (si & sn & st & sd & sa & su & sc & ss & sr & _ & ->)%str_Ok_inv.
  split.
  - eexists. reflexivity.
  - rewrite length_split. unfold LF. rewrite count_join.
    cbn [List.length pred]. lia.
Qed.

Lemma str_header_and_line_count_witness :
  __str__ scenario_kwargs = Ok scenario_output
  ∧ startswith scenario_output ("Channel Information:" +:+ LF)
  ∧ (10 ≤ List.length (split LF_char scenario_output))%nat.
Proof.
  assert (__str__ scenario_kwargs = Ok scenario_output) as Hout by reflexivity.
  split; [exact Hout|].
  exact (str_header_and_line_count scenario_kwargs scenario_output Hout).
Defined.
